(** * Delivery worker and webhook sender: model and verified properties

    The development embeds the Go package [mailer] (dispatch loop,
    connection acquisition, delivery loop, pacing wrapper) and the
    package [webhook] (signed event notification) as Rocq functions and
    proves, or refutes at concrete inputs, the behavioural claims made
    about them.

    Modelling conventions.
    - The interfaces [Mail], [Sender] and [Dialer] have arbitrary
      implementations.  Objects are identified by a number, and what an
      implementation answers is given by an environment [Env] whose
      oracles may depend on everything that happened before (the trace).
    - Every call that crosses one of those interfaces is recorded as an
      [Event], in chronological order.
    - A Go pair [(Sender, error)] is a pair of options, [None] being [nil].
    - A run ends in [Done], in [Panic] (a Go run-time panic, e.g. a method
      call on a nil interface) or in [OutOfFuel] (only for the retry loop,
      which is shown never to reach it).
    - Log statements do not touch the delivery state and are left out;
      their field expressions read the [To] header of the rendered
      message, which a successful [Generate] is taken to have filled in. *)

From Stdlib Require Import List ZArith Bool Ascii String Lia Arith.
From Stdlib.Strings Require Import Byte.
Import ListNotations.
Local Open Scope Z_scope.

(** ** Data model *)

Module Mailer.

(** Identities of the objects behind the three interfaces. *)
Definition Mail := nat.
Definition Sender := nat.
Definition Dialer := nat.

(** Go [error] values that the worker can tell apart: [*textproto.Error]
    (the target of the type assertion in [sendMail]), the package's own
    [*ErrMaxConnectAttempts], and every other error. *)
#[warnings="-register-all"]
Inductive error : Type :=
| TextprotoError (Code : Z) (Msg : string)
| ErrMaxConnectAttempts (underlyingError : option error)
| OtherError (msg : string).

(** [var MaxReconnectAttempts = 10] *)
Definition MaxReconnectAttempts : Z := 10.

(** [(e *ErrMaxConnectAttempts) Error()] and the text of the other errors. *)
Fixpoint Error (e : error) : string :=
  match e with
  | TextprotoError _ msg => msg
  | OtherError msg => msg
  | ErrMaxConnectAttempts u =>
      let errString := "Max connection attempts exceeded"%string in
      match u with
      | Some ue => (errString ++ " - " ++ Error ue)%string
      | None => errString
      end
  end.

(** [type MailBundle struct { Delay int64; Mails []Mail }] *)
Record MailBundle : Type := { Delay : Z; Mails : list Mail }.

Definition NewMailBundle (ms : list Mail) (delay : Z) : MailBundle :=
  {| Mails := ms; Delay := delay |}.

(** What [Dialer.Dial] and [dialHost] hand back: [(Sender, error)]. *)
Definition DialResult : Type := option Sender * option error.

(** Calls across the interfaces, with the answer where there is one. *)
Inductive Event : Type :=
| EvGetDialer (m : Mail) (d : Dialer) (err : option error)
| EvDial (d : Dialer) (r : DialResult)
| EvGenerate (m : Mail) (err : option error)
| EvSend (s : Sender) (m : Mail) (err : option error)
| EvReset (s : Sender)
| EvClose (s : Sender)
| EvBackoff (m : Mail) (reason : error)
| EvError (m : Mail) (err : error)
| EvSuccess (m : Mail)
| EvTick.

Definition Trace := list Event.

(** The environment of one run: when the context is cancelled and what
    the interface implementations answer.  [deadline = Some n] cancels the
    context once [n] events have happened, so [ctx.Done()] never reverts. *)
Record Env : Type := {
  deadline : option nat;
  getDialer : Mail -> Trace -> Dialer * option error;
  dial : Dialer -> Trace -> DialResult;
  generate : Mail -> Trace -> option error;
  send : Sender -> Mail -> Trace -> option error;
  tick_first : Trace -> bool
}.

Definition ctx_done (env : Env) (w : Trace) : bool :=
  match deadline env with
  | Some n => (n <=? List.length w)%nat
  | None => false
  end.

(** ** Effects *)

Inductive Res (A : Type) : Type :=
| Done (a : A)
| Panic
| OutOfFuel.
Arguments Done {A} a.
Arguments Panic {A}.
Arguments OutOfFuel {A}.

Definition M (A : Type) : Type := Trace -> Res A * Trace.

Definition ret {A} (a : A) : M A := fun w => (Done a, w).

Definition bind {A B} (c : M A) (k : A -> M B) : M B :=
  fun w =>
    match c w with
    | (Done a, w') => k a w'
    | (Panic, w') => (Panic, w')
    | (OutOfFuel, w') => (OutOfFuel, w')
    end.

Definition panic {A} : M A := fun w => (Panic, w).

Definition emit (e : Event) : M unit := fun w => (Done tt, w ++ [e]).

(** [defer d] in front of [body]: [d] runs when [body] returns and also
    when it panics; what [d] returns is dropped. *)
Definition defer {A} (d : M unit) (body : M A) : M A :=
  fun w => let (r, w') := body w in (r, snd (d w')).

Declare Scope go_scope.
Delimit Scope go_scope with go.
Notation "x <- c ;; k" := (bind c (fun x => k))
  (at level 61, c at next level, right associativity) : go_scope.
Notation "c ;; k" := (bind c (fun _ => k))
  (at level 61, right associativity) : go_scope.
Local Open Scope go_scope.

(** ** Interface calls *)

Section Worker.

Variable env : Env.

(** [select { case <-ctx.Done(): ...; default: }] *)
Definition ctxDone : M bool := fun w => (Done (ctx_done env w), w).

Definition GetDialer (m : Mail) : M (Dialer * option error) :=
  fun w => let r := getDialer env m w in
           (Done r, w ++ [EvGetDialer m (fst r) (snd r)]).

Definition Dial (d : Dialer) : M DialResult :=
  fun w => let r := dial env d w in (Done r, w ++ [EvDial d r]).

Definition Generate (m : Mail) : M (option error) :=
  fun w => let r := generate env m w in (Done r, w ++ [EvGenerate m r]).

(** [gomail.Send(sender, message)]; on a nil [sender] the method call inside
    panics. *)
Definition gomailSend (sender : option Sender) (m : Mail) : M (option error) :=
  match sender with
  | None => panic
  | Some s =>
      fun w => let r := send env s m w in (Done r, w ++ [EvSend s m r])
  end.

Definition Reset (sender : option Sender) : M unit :=
  match sender with
  | None => panic
  | Some s => emit (EvReset s)
  end.

Definition Close (sender : option Sender) : M unit :=
  match sender with
  | None => panic
  | Some s => emit (EvClose s)
  end.

Definition Backoff (m : Mail) (reason : error) : M unit := emit (EvBackoff m reason).
Definition MailError (m : Mail) (err : error) : M unit := emit (EvError m err).
Definition Success (m : Mail) : M unit := emit (EvSuccess m).

(** ** The worker *)

(** [func errorMail(err error, ms []Mail)] *)
Fixpoint errorMail (err : error) (ms : list Mail) : M unit :=
  match ms with
  | [] => ret tt
  | m :: ms' => MailError m err ;; errorMail err ms'
  end.

(** The [for] loop of [dialHost]; [fuel] bounds the number of rounds. *)
Fixpoint dialLoop (fuel : nat) (dialer : Dialer) (sendAttempt : Z) : M DialResult :=
  match fuel with
  | O => fun w => (OutOfFuel, w)
  | S fuel' =>
      cancelled <- ctxDone ;;
      if cancelled then ret (None, None)
      else
        r <- Dial dialer ;;
        match snd r with
        | None => ret (fst r, None)
        | Some err =>
            let sendAttempt := sendAttempt + 1 in
            if sendAttempt =? MaxReconnectAttempts
            then ret (fst r, Some (ErrMaxConnectAttempts (Some err)))
            else dialLoop fuel' dialer sendAttempt
        end
  end.

(** [func dialHost(ctx context.Context, dialer Dialer) (Sender, error)] *)
Definition dialHost (dialer : Dialer) : M DialResult :=
  dialLoop (Z.to_nat MaxReconnectAttempts) dialer 0.

(** The [for i, m := range ms] loop of [sendMail].  [ms] is the whole
    slice, [i] the index of the head of [rest], [sender] the variable of
    that name.  [return] and [break] both end the loop, after which only
    the deferred call is left. *)
Fixpoint sendLoop (dialer : Dialer) (ms : list Mail) (i : nat)
         (sender : option Sender) (rest : list Mail) : M unit :=
  match rest with
  | [] => ret tt
  | m :: rest' =>
      cancelled <- ctxDone ;;
      if cancelled then ret tt
      else
        gerr <- Generate m ;;
        match gerr with
        | Some err => MailError m err ;; sendLoop dialer ms (S i) sender rest'
        | None =>
            serr <- gomailSend sender m ;;
            match serr with
            | Some err =>
                match err with
                | TextprotoError code _ =>
                    if (400 <=? code) && (code <=? 499) then
                      Backoff m err ;; Reset sender ;;
                      sendLoop dialer ms (S i) sender rest'
                    else if (500 <=? code) && (code <=? 599) then
                      MailError m err ;; Reset sender ;;
                      sendLoop dialer ms (S i) sender rest'
                    else
                      MailError m err ;; Reset sender ;;
                      sendLoop dialer ms (S i) sender rest'
                | _ =>
                    let origErr := err in
                    r <- dialHost dialer ;;
                    match snd r with
                    | Some err => errorMail err (skipn i ms)
                    | None =>
                        Backoff m origErr ;;
                        sendLoop dialer ms (S i) (fst r) rest'
                    end
                end
            | None => Success m ;; sendLoop dialer ms (S i) sender rest'
            end
        end
  end.

(** [func sendMail(ctx context.Context, dialer Dialer, ms []Mail)].
    [defer sender.Close()] binds the receiver when the statement runs: on a
    nil [sender] it panics there, otherwise the sender of that moment is the
    one closed at exit. *)
Definition sendMail (dialer : Dialer) (ms : list Mail) : M unit :=
  r <- dialHost dialer ;;
  match snd r with
  | Some err => errorMail err ms
  | None =>
      match fst r with
      | None => panic
      | Some s => defer (Close (Some s)) (sendLoop dialer ms 0 (fst r) ms)
      end
  end.

(** [time.Second] in nanoseconds, and 64-bit signed wrap-around. *)
Definition Second : Z := 1000000000.
Definition wrap64 (x : Z) : Z := (x + 2 ^ 63) mod 2 ^ 64 - 2 ^ 63.

(** [select { case <-ctx.Done(): ...; case <-tick: ... }]: without
    cancellation the tick is what arrives; once the context is done both
    cases can be ready and [tick_first] says which one is taken. *)
Definition selectTick : M bool :=
  fun w =>
    if ctx_done env w
    then (if tick_first env w then (Done true, w ++ [EvTick]) else (Done false, w))
    else (Done true, w ++ [EvTick]).

(** The [for i, m := range ms] loop of [sendDelayedMail]. *)
Fixpoint delayedLoop (dialer : Dialer) (ms : list Mail) : M unit :=
  match ms with
  | [] => ret tt
  | m :: ms' =>
      ticked <- selectTick ;;
      if ticked then sendMail dialer [m] ;; delayedLoop dialer ms'
      else ret tt
  end.

(** [func sendDelayedMail(ctx, dialer, ms, delay int64)].
    [time.NewTicker] panics on a non-positive interval. *)
Definition sendDelayedMail (dialer : Dialer) (ms : list Mail) (delay : Z) : M unit :=
  let interval := wrap64 (delay * Second) in
  if interval <=? 0 then panic
  else delayedLoop dialer ms.

(** The function literal that [Start] launches for a received bundle.
    [ms[0]] on an empty slice is an index-out-of-range panic. *)
Definition Start_worker (mb : MailBundle) : M unit :=
  let ms := Mails mb in
  match ms with
  | [] => panic
  | m0 :: _ =>
      r <- GetDialer m0 ;;
      match snd r with
      | Some err => errorMail err ms
      | None =>
          if Delay mb <=? 0 then sendMail (fst r) ms
          else sendDelayedMail (fst r) ms (Delay mb)
      end
  end.

(** [func (mw *MailWorker) Start(ctx)]: every bundle received from the
    queue gets a unit of work of its own; the units run independently. *)
Definition Start (received : list MailBundle) : list (M unit) :=
  map Start_worker received.

(** ** Vocabulary for stating properties *)

(** The trace after [k] dial attempts in a row, each answered by the
    environment at the moment it is made. *)
Fixpoint dialAttempts (dialer : Dialer) (k : nat) (w : Trace) : Trace :=
  match k with
  | O => w
  | S k' => dialAttempts dialer k' (w ++ [EvDial dialer (dial env dialer w)])
  end.

(** The first [k] attempts from [w] all fail, and the context is live
    before each of them. *)
Definition dialsFail (dialer : Dialer) (k : nat) (w : Trace) : Prop :=
  forall j, (j < k)%nat ->
    ctx_done env (dialAttempts dialer j w) = false /\
    snd (dial env dialer (dialAttempts dialer j w)) <> None.


End Worker.

Arguments dialHost : simpl never.

(** A non-protocol (connection-level) error: one on which the type
    assertion to [*textproto.Error] fails. *)
Definition connectionLevel (e : error) : bool :=
  match e with TextprotoError _ _ => false | _ => true end.

Definition isDial (e : Event) : bool :=
  match e with EvDial _ _ => true | _ => false end.

(** The senders closed in a trace, in order. *)
Definition closed (w : Trace) : list Sender :=
  flat_map (fun e => match e with EvClose s => [s] | _ => [] end) w.

(** The senders that successful dials handed out in a trace, in order. *)
Definition acquired (w : Trace) : list Sender :=
  flat_map (fun e => match e with
                     | EvDial _ (Some s, None) => [s]
                     | _ => []
                     end) w.

(** The mails that received an outcome notification, in order. *)
Definition notified (w : Trace) : list Mail :=
  flat_map (fun e => match e with
                     | EvBackoff m _ | EvError m _ | EvSuccess m => [m]
                     | _ => []
                     end) w.

(** The senders on which a send was attempted before the next dial. *)
Fixpoint sendsBeforeDial (w : Trace) : list Sender :=
  match w with
  | [] => []
  | EvDial _ _ :: _ => []
  | EvSend s _ _ :: w' => s :: sendsBeforeDial w'
  | _ :: w' => sendsBeforeDial w'
  end.

Definition isTick (e : Event) : bool :=
  match e with EvTick => true | _ => false end.

(** The number of ticks taken in a trace. *)
Definition ticks (w : Trace) : nat := List.length (filter isTick w).

(** The events that a delivery of the mails [ms] through [dialer] can
    add: dials of that dialer, calls on those mails, resets and closes. *)
Definition ofDelivery (dialer : Dialer) (ms : list Mail) (e : Event) : bool :=
  match e with
  | EvDial d _ => (d =? dialer)%nat
  | EvGenerate m _ | EvSend _ m _ | EvBackoff m _ | EvError m _ | EvSuccess m =>
      existsb (Nat.eqb m) ms
  | EvReset _ | EvClose _ => true
  | EvGetDialer _ _ _ | EvTick => false
  end.





(** What one run of the delivery loop over [rest], entered with [sender],
    adds to the trace: it comes back; until it dials again it sends on
    [sender] only; it closes nothing itself; the messages notified are the
    first so many of [rest], once each and in order, and all of them when
    the context is never cancelled and the run does not panic. *)
Record shape (env : Env) (sender : option Sender) (rest : list Mail)
       (o : Res unit) (delta : Trace) : Prop := {
  shape_returns : o <> OutOfFuel;
  shape_sends : Forall (fun x => sender = Some x) (sendsBeforeDial delta);
  shape_closed : closed delta = [];
  shape_prefix : exists k, notified delta = firstn k rest;
  shape_all : deadline env = None -> o = Done tt -> notified delta = rest
}.

(** The three ways in which connection acquisition from [w] ends, with
    what it returns and the trace it leaves: cancelled before attempt
    [k+1], connected at attempt [k+1], or given up after ten failures. *)
Inductive Acquired (env : Env) (dialer : Dialer) (w : Trace)
  : DialResult -> Trace -> Prop :=
| AcqCancelled k :
    (k < 10)%nat -> dialsFail env dialer k w ->
    ctx_done env (dialAttempts env dialer k w) = true ->
    Acquired env dialer w (None, None) (dialAttempts env dialer k w)
| AcqConnected k :
    (k < 10)%nat -> dialsFail env dialer k w ->
    ctx_done env (dialAttempts env dialer k w) = false ->
    snd (dial env dialer (dialAttempts env dialer k w)) = None ->
    Acquired env dialer w
      (fst (dial env dialer (dialAttempts env dialer k w)), None)
      (dialAttempts env dialer (S k) w)
| AcqExhausted :
    dialsFail env dialer 10 w ->
    Acquired env dialer w
      (fst (dial env dialer (dialAttempts env dialer 9 w)),
       Some (ErrMaxConnectAttempts
               (snd (dial env dialer (dialAttempts env dialer 9 w)))))
      (dialAttempts env dialer 10 w).

(** A dialer that keeps to the usual contract of a [(Sender, error)]
    result: no error means there is a sender. *)
Definition dialsWell (env : Env) (dialer : Dialer) : Prop :=
  forall w, snd (dial env dialer w) = None -> fst (dial env dialer w) <> None.

(** Two more facts about a run of the delivery loop over [rest]: it only
    adds events of that delivery, and with a context that is never
    cancelled, a dialer that keeps to its contract and a sender to start
    with, it returns. *)
Record bounds (env : Env) (dialer : Dialer) (sender : option Sender)
       (rest : list Mail) (o : Res unit) (delta : Trace) : Prop := {
  bounds_within : forallb (ofDelivery dialer rest) delta = true;
  bounds_completes :
    deadline env = None -> dialsWell env dialer -> sender <> None -> o = Done tt
}.

End Mailer.


(** ** The webhook sender *)

Module Webhook.

Definition DefaultTimeoutSeconds : Z := 10.
Definition MinHttpStatusErrorCode : Z := 400.
Definition SignatureHeader : string := "X-Gophish-Signature".

Definition bytes : Type := list Byte.byte.

(** Go errors of this package are only passed on; their text stands for them. *)
Definition error : Type := string.

(** [http.Header], as the pairs that [Set] leaves behind.  Both keys used
    here are already in canonical form. *)
Definition Header : Type := list (string * string).

Definition Header_Set (h : Header) (key value : string) : Header :=
  (key, value) :: filter (fun kv => negb (String.eqb (fst kv) key)) h.

Definition Header_Get (h : Header) (key : string) : option string :=
  match find (fun kv => String.eqb (fst kv) key) h with
  | Some kv => Some (snd kv)
  | None => None
  end.

Record Request : Type := {
  Method : string;
  URL : string;
  Body : bytes;
  Hdr : Header
}.

Record Response : Type := { StatusCode : Z; Status : string }.

(** How a call of [Send] ends: it returns an error value ([None] is
    [nil]), or it panics. *)
Inductive Result : Type :=
| Return (err : option error)
| Panic.

(** [hex.EncodeToString] *)
Definition hextable : string := "0123456789abcdef".

Definition hexDigit (n : N) : Ascii.ascii :=
  match String.get (N.to_nat n) hextable with
  | Some c => c
  | None => "0"%char
  end.

Fixpoint hex_EncodeToString (src : bytes) : string :=
  match src with
  | [] => EmptyString
  | v :: src' =>
      let n := Byte.to_N v in
      String (hexDigit (N.shiftr n 4))
        (String (hexDigit (N.land n 15)) (hex_EncodeToString src'))
  end.

(** The inverse of [hex_EncodeToString], to state that the encoding loses
    nothing: two digits give a byte back. *)
Definition unhexDigit (c : Ascii.ascii) : option N :=
  match index 0 (String c EmptyString) hextable with
  | Some i => Some (N.of_nat i)
  | None => None
  end.

Fixpoint hex_DecodeString (s : string) : option bytes :=
  match s with
  | EmptyString => Some []
  | String a (String b s') =>
      match unhexDigit a, unhexDigit b, hex_DecodeString s' with
      | Some hi, Some lo, Some rest =>
          match Byte.of_N (N.lor (N.shiftl hi 4) lo) with
          | Some v => Some (v :: rest)
          | None => None
          end
      | _, _, _ => None
      end
  | String _ EmptyString => None
  end.

Section Sender.

(** The dynamic type behind [data interface{}]. *)
Variable Payload : Type.

(** [json.Marshal] *)
Variable json_Marshal : Payload -> bytes * option error.

(** [hmac.New(sha256.New, key)], [Write(data)] and [Sum(nil)] in one. *)
Variable hmac_sha256 : bytes -> bytes -> bytes.

(** Whether [http.NewRequest] can parse the URL. *)
Variable url_ok : string -> bool.

(** [ds.client.Do] *)
Variable client_Do : Request -> option Response * option error.

(** The byte slice that [sign] is handed for [data].  The call site passes
    [data] itself, declared [interface{}], where [sign] wants [[]byte]; the
    slice it gets is whatever [data] is as bytes, not [jsonData]. *)
Variable data_bytes : Payload -> bytes.

(** [http.NewRequest(method, url, body)]: [(nil, err)] on a URL that does
    not parse. *)
Definition http_NewRequest (method url : string) (body : bytes)
  : option Request * option error :=
  if url_ok url
  then (Some {| Method := method; URL := url; Body := body; Hdr := [] |}, None)
  else (None, Some ("parse " ++ url)%string).

(** [func sign(secret string, data []byte) (string, error)].  The [Write]
    of a hash never returns an error. *)
Definition sign (secret : string) (data : bytes) : string * option error :=
  let sum := hmac_sha256 (list_byte_of_string secret) data in
  (hex_EncodeToString sum, None).

(** The request that [Send] hands to the client for a URL that parses:
    named here to state what goes out. *)
Definition outgoing (url secret : string) (jsonData : bytes) (data : Payload)
  : Request :=
  {| Method := "POST"; URL := url; Body := jsonData;
     Hdr := [("Content-Type", "application/json");
             (SignatureHeader, fst (sign secret (data_bytes data)))]%string |}.

(** [func (ds DefaultSender) Send(url string, secret string, data interface{}) error].
    The errors of [http.NewRequest] and of [sign] are overwritten without
    being looked at; a nil [req] makes [req.Header] panic. *)
Definition Send (url secret : string) (data : Payload) : Result :=
  let (jsonData, err) := json_Marshal data in
  match err with
  | Some e => Return (Some e)
  | None =>
      let (req, _) := http_NewRequest "POST" url jsonData in
      let (signat, _) := sign secret (data_bytes data) in
      match req with
      | None => Panic
      | Some req =>
          let h := Header_Set (Hdr req) SignatureHeader signat in
          let h := Header_Set h "Content-Type" "application/json" in
          let req := {| Method := Method req; URL := URL req;
                        Body := Body req; Hdr := h |} in
          let (resp, err) := client_Do req in
          match err with
          | Some e => Return (Some e)
          | None =>
              match resp with
              | None => Panic
              | Some resp =>
                  if StatusCode resp >=? MinHttpStatusErrorCode
                  then Return (Some ("http status of response: " ++ Status resp)%string)
                  else Return None
              end
          end
      end
  end.

End Sender.

End Webhook.

(** ** Concrete environments *)

Module Scenarios.
Import Mailer.

(** Senders are numbered by the successful dials made so far. *)
Definition nextSender (w : Trace) : Sender := S (List.length (acquired w)).


(** The dialer every mail of the scenarios names, and a batch of three. *)
Definition d7 : Dialer := 7%nat.
Definition batch : list Mail := [1; 2; 3]%nat.

Definition refused : error := OtherError "dial tcp: connection refused".
Definition ceiling : error := ErrMaxConnectAttempts (Some refused).

(** An environment in which rendering always works, mail [bad] fails to
    send with [err], every other send succeeds, and dialling works as
    long as [dialUp] says so. *)
Definition world (cancelAt : option nat) (dialUp : Trace -> bool)
           (bad : Mail) (err : error) : Env :=
  {| deadline := cancelAt;
     getDialer := fun _ _ => (d7, None);
     dial := fun _ w =>
       if dialUp w then (Some (nextSender w), None)
       else (None, Some refused);
     generate := fun _ _ => None;
     send := fun _ m _ => if (m =? bad)%nat then Some err else None;
     tick_first := fun _ => true |}.

(** The same world, except that no mail can name a dialer. *)
Definition noDialer : error := OtherError "no sending profile".
Definition withoutDialer (e : Env) : Env :=
  {| deadline := deadline e;
     getDialer := fun _ _ => (0%nat, Some noDialer);
     dial := dial e; generate := generate e; send := send e;
     tick_first := tick_first e |}.

(** The same world, except that a context that is done loses against the
    tick ([yes = true]) or wins against it. *)
Definition withTickFirst (yes : bool) (e : Env) : Env :=
  {| deadline := deadline e; getDialer := getDialer e;
     dial := dial e; generate := generate e; send := send e;
     tick_first := fun _ => yes |}.

(** The same world, except that mail [m] cannot be rendered. *)
Definition unrenderable : error := OtherError "template: bad syntax".
Definition withBadTemplate (m : Mail) (e : Env) : Env :=
  {| deadline := deadline e; getDialer := getDialer e; dial := dial e;
     generate := fun m' _ => if (m' =? m)%nat then Some unrenderable else None;
     send := send e; tick_first := tick_first e |}.

Definition always (_ : Trace) : bool := true.
Definition never (_ : Trace) : bool := false.
Definition fromThirdDial (w : Trace) : bool :=
  (2 <=? List.length (filter isDial w))%nat.

Definition eof : error := OtherError "EOF".

(** The trace of a run in which sender 1 was acquired and mail 1 delivered. *)
Definition afterFirstMail : Trace :=
  [EvDial d7 (Some 1%nat, None); EvGenerate 1%nat None;
   EvSend 1%nat 1%nat None; EvSuccess 1%nat].

(** Stand-ins for the collaborators of the webhook sender: the payload is
    a byte string that marshals to itself between double quotes, the keyed
    hash is the key followed by the message, only the URL [":"] fails to
    parse, and the server answers 200 when the signature header is the
    keyed hash of the body it received and 401 otherwise. *)
Definition quote : Byte.byte := Byte.x22.
Definition marshal (data : Webhook.bytes) : Webhook.bytes * option Webhook.error :=
  (quote :: data ++ [quote], None).
Definition keyed (key msg : Webhook.bytes) : Webhook.bytes := key ++ msg.
Definition parses (url : string) : bool := negb (String.eqb url ":").
Definition asIs (data : Webhook.bytes) : Webhook.bytes := data.
Definition verifier (secret : string) (req : Webhook.Request)
  : option Webhook.Response * option Webhook.error :=
  let expected :=
    Webhook.hex_EncodeToString
      (keyed (list_byte_of_string secret) (Webhook.Body req)) in
  match Webhook.Header_Get (Webhook.Hdr req) Webhook.SignatureHeader with
  | Some got =>
      if String.eqb got expected
      then (Some {| Webhook.StatusCode := 200; Webhook.Status := "200 OK" |}, None)
      else (Some {| Webhook.StatusCode := 401;
                    Webhook.Status := "401 Unauthorized" |}, None)
  | None =>
      (Some {| Webhook.StatusCode := 401;
               Webhook.Status := "401 Unauthorized" |}, None)
  end.

(** The endpoint and the payload of the sample calls. *)
Definition hook : string := "http://hooks.example/notify".
Definition body : Webhook.bytes := list_byte_of_string "{}".

(** Further stand-ins: a payload that cannot be marshalled, and clients
    that answer with a fixed status, fail to connect, or return nothing. *)
Definition unmarshalable (_ : Webhook.bytes)
  : Webhook.bytes * option Webhook.error :=
  ([], Some "json: unsupported type"%string).
Definition answers (code : Z) (status : string) (_ : Webhook.Request)
  : option Webhook.Response * option Webhook.error :=
  (Some {| Webhook.StatusCode := code; Webhook.Status := status |}, None).
Definition unreachable (_ : Webhook.Request)
  : option Webhook.Response * option Webhook.error :=
  (None, Some "dial tcp: connection refused"%string).
Definition silent (_ : Webhook.Request)
  : option Webhook.Response * option Webhook.error :=
  (None, None).

End Scenarios.

(** * Properties of the delivery worker *)

Module MailerFacts.
Import Mailer.
Local Open Scope go_scope.

(** ** Basic facts about the effects *)

Section Facts.

Variable env : Env.

Lemma ctx_done_app (w d : Trace) :
  ctx_done env w = true -> ctx_done env (w ++ d) = true.
Proof.
  unfold ctx_done. destruct (deadline env) as [n|]; [|discriminate].
  rewrite length_app. intros H. apply Nat.leb_le in H. apply Nat.leb_le. lia.
Qed.

Lemma ctx_done_prefix (w d : Trace) :
  ctx_done env (w ++ d) = false -> ctx_done env w = false.
Proof.
  intros H. destruct (ctx_done env w) eqn:E; [|reflexivity].
  rewrite (ctx_done_app _ d E) in H. discriminate.
Qed.

Lemma errorMail_trace (err : error) (ms : list Mail) (w : Trace) :
  errorMail err ms w = (Done tt, w ++ map (fun m => EvError m err) ms).
Proof.
  revert w. induction ms as [|m ms IH]; intros w; simpl.
  - unfold ret. now rewrite app_nil_r.
  - unfold bind, MailError, emit. rewrite IH, <- app_assoc. reflexivity.
Qed.

(** A cancelled context ends the delivery loop before anything is
    rendered, sent or notified. *)
Lemma sendLoop_cancelled dialer ms i sender rest w :
  ctx_done env w = true ->
  sendLoop env dialer ms i sender rest w = (Done tt, w).
Proof.
  intros H. destruct rest as [|m rest]; simpl; [reflexivity|].
  unfold bind, ctxDone. rewrite H. reflexivity.
Qed.

(** *** Connection acquisition *)

Lemma dialAttempts_S dialer k w :
  dialAttempts env dialer (S k) w =
  dialAttempts env dialer k w ++
    [EvDial dialer (dial env dialer (dialAttempts env dialer k w))].
Proof.
  revert w. induction k as [|k IH]; intros w; [reflexivity|].
  change (dialAttempts env dialer (S (S k)) w)
    with (dialAttempts env dialer (S k) (w ++ [EvDial dialer (dial env dialer w)])).
  rewrite IH. reflexivity.
Qed.

Lemma dialsFail_tail dialer k w :
  dialsFail env dialer (S k) w ->
  dialsFail env dialer k (w ++ [EvDial dialer (dial env dialer w)]).
Proof.
  intros H j Hj. apply (H (S j)). lia.
Qed.

(** [k] failed attempts short of the ceiling leave the loop running, [k]
    rounds and [k] counts further on. *)
Lemma dialLoop_failed dialer k :
  forall fuel sendAttempt w,
    sendAttempt + Z.of_nat k < MaxReconnectAttempts ->
    dialsFail env dialer k w ->
    dialLoop env (k + fuel) dialer sendAttempt w =
    dialLoop env fuel dialer (sendAttempt + Z.of_nat k) (dialAttempts env dialer k w).
Proof.
  induction k as [|k IH]; intros fuel sa w Hlt Hf.
  - simpl. now rewrite Z.add_0_r.
  - destruct (Hf 0%nat ltac:(lia)) as [Hc Hd]. simpl in Hc, Hd.
    change (S k + fuel)%nat with (S (k + fuel)).
    cbn [dialLoop]. unfold bind at 1. unfold ctxDone at 1. rewrite Hc.
    unfold bind at 1. unfold Dial at 1. cbn [snd fst].
    destruct (snd (dial env dialer w)) as [e|] eqn:E; [|contradiction].
    replace (sa + 1 =? MaxReconnectAttempts) with false
      by (symmetry; apply Z.eqb_neq; lia).
    rewrite IH; [|lia|now apply dialsFail_tail].
    cbn [dialAttempts]. f_equal. lia.
Qed.

Lemma dialHost_exhausted dialer w :
  dialsFail env dialer 10 w ->
  let last := dial env dialer (dialAttempts env dialer 9 w) in
  dialHost env dialer w =
  (Done (fst last, Some (ErrMaxConnectAttempts (snd last))),
   dialAttempts env dialer 10 w).
Proof.
  intros Hf last. unfold dialHost.
  change (Z.to_nat MaxReconnectAttempts) with (9 + 1)%nat.
  rewrite dialLoop_failed;
    [|unfold MaxReconnectAttempts; lia|intros j Hj; apply Hf; lia].
  destruct (Hf 9%nat ltac:(lia)) as [Hc Hd].
  cbn [dialLoop]. unfold bind at 1. unfold ctxDone at 1. rewrite Hc.
  unfold bind at 1. unfold Dial at 1. cbn [snd fst]. fold last in Hd |- *.
  rewrite (dialAttempts_S dialer 9 w). fold last.
  destruct (snd last) as [e|]; [|contradiction]. reflexivity.
Qed.

Lemma dialHost_cancelled dialer k w :
  (k < 10)%nat ->
  dialsFail env dialer k w ->
  ctx_done env (dialAttempts env dialer k w) = true ->
  dialHost env dialer w = (Done (None, None), dialAttempts env dialer k w).
Proof.
  intros Hk Hf Hc. unfold dialHost.
  replace (Z.to_nat MaxReconnectAttempts) with (k + S (9 - k))%nat
    by (unfold MaxReconnectAttempts; lia).
  rewrite dialLoop_failed; [|unfold MaxReconnectAttempts; lia|assumption].
  cbn [dialLoop]. unfold bind, ctxDone. rewrite Hc. reflexivity.
Qed.

Lemma dialHost_connected dialer k w :
  (k < 10)%nat ->
  dialsFail env dialer k w ->
  ctx_done env (dialAttempts env dialer k w) = false ->
  snd (dial env dialer (dialAttempts env dialer k w)) = None ->
  dialHost env dialer w =
  (Done (fst (dial env dialer (dialAttempts env dialer k w)), None),
   dialAttempts env dialer (S k) w).
Proof.
  intros Hk Hf Hc Hd. unfold dialHost.
  replace (Z.to_nat MaxReconnectAttempts) with (k + S (9 - k))%nat
    by (unfold MaxReconnectAttempts; lia).
  rewrite dialLoop_failed; [|unfold MaxReconnectAttempts; lia|assumption].
  cbn [dialLoop]. unfold bind at 1. unfold ctxDone at 1. rewrite Hc.
  unfold bind at 1. unfold Dial at 1. cbn [snd fst]. rewrite Hd.
  rewrite dialAttempts_S. reflexivity.
Qed.

(** The retry loop always comes back, after between 0 and 10 dial
    attempts and nothing else.  No attempt at all means the context was
    already cancelled; an error is always the wrapped ceiling error. *)
Lemma dialLoop_returns dialer fuel :
  forall sendAttempt w,
    0 <= sendAttempt < MaxReconnectAttempts ->
    (Z.to_nat (MaxReconnectAttempts - sendAttempt) <= fuel)%nat ->
    exists r k,
      dialLoop env fuel dialer sendAttempt w = (Done r, dialAttempts env dialer k w) /\
      (k = 0%nat -> r = (None, None) /\ ctx_done env w = true) /\
      (k <> 0%nat -> ctx_done env w = false) /\
      (forall e, snd r = Some e -> exists u, e = ErrMaxConnectAttempts (Some u)).
Proof.
  induction fuel as [|fuel IH]; intros sa w Hsa Hfuel.
  - unfold MaxReconnectAttempts in *. lia.
  - cbn [dialLoop]. unfold bind at 1. unfold ctxDone at 1.
    destruct (ctx_done env w) eqn:Hc.
    + exists (None, None), 0%nat. repeat split; try easy.
    + unfold bind at 1. unfold Dial at 1. cbn [snd fst].
      destruct (snd (dial env dialer w)) as [e|] eqn:Hd.
      * destruct (sa + 1 =? MaxReconnectAttempts) eqn:Hmax.
        -- exists (fst (dial env dialer w), Some (ErrMaxConnectAttempts (Some e))), 1%nat.
           repeat split; try easy.
           intros e' He'. simpl in He'. injection He' as <-. now exists e.
        -- apply Z.eqb_neq in Hmax.
           destruct (IH (sa + 1) (w ++ [EvDial dialer (dial env dialer w)]))
             as (r & k & Hr & _ & _ & He); [lia|lia|].
           exists r, (S k). repeat split; try easy.
      * exists (fst (dial env dialer w), None), 1%nat. repeat split; try easy.
Qed.

Lemma dialHost_returns dialer w :
  exists r k,
    dialHost env dialer w = (Done r, dialAttempts env dialer k w) /\
    (k = 0%nat -> r = (None, None) /\ ctx_done env w = true) /\
    (k <> 0%nat -> ctx_done env w = false) /\
    (forall e, snd r = Some e -> exists u, e = ErrMaxConnectAttempts (Some u)).
Proof.
  unfold dialHost. apply dialLoop_returns.
  - unfold MaxReconnectAttempts. lia.
  - rewrite Z.sub_0_r. lia.
Qed.

Lemma dialAttempts_app dialer k :
  forall w, exists delta,
    dialAttempts env dialer k w = w ++ delta /\
    List.length delta = k /\ forallb isDial delta = true.
Proof.
  induction k as [|k IH]; intros w.
  - exists []. now rewrite app_nil_r.
  - destruct (IH (w ++ [EvDial dialer (dial env dialer w)])) as (d & Hd & Hl & Ha).
    exists (EvDial dialer (dial env dialer w) :: d). cbn [dialAttempts].
    rewrite Hd, <- app_assoc. simpl. now rewrite Hl, Ha.
Qed.

End Facts.

(** *** The whole run of the delivery loop *)

Section Shape.

Variable env : Env.
Variable dialer : Dialer.

Lemma closed_app a b : closed (a ++ b) = closed a ++ closed b.
Proof. apply flat_map_app. Qed.

Lemma notified_app a b : notified (a ++ b) = notified a ++ notified b.
Proof. apply flat_map_app. Qed.

Lemma dials_quiet dd :
  forallb isDial dd = true -> closed dd = [] /\ notified dd = [].
Proof.
  induction dd as [|e dd IH]; [easy|]. simpl. intros H.
  apply andb_true_iff in H as [He Hd]. destruct e; try discriminate.
  now apply IH.
Qed.

Lemma shape_step sender sender' m rest o delta evs :
  shape env sender' rest o delta ->
  closed evs = [] ->
  notified evs = [m] ->
  Forall (fun x => sender = Some x) (sendsBeforeDial (evs ++ delta)) ->
  shape env sender (m :: rest) o (evs ++ delta).
Proof.
  intros [H1 H2 H3 [k H4] H5] Hc Hn Hs. split.
  - assumption.
  - assumption.
  - now rewrite closed_app, Hc, H3.
  - exists (S k). now rewrite notified_app, Hn, H4.
  - intros Hd Ho. rewrite notified_app, Hn, (H5 Hd Ho). reflexivity.
Qed.

Lemma sendLoop_shape rest :
  forall pre sender w,
  exists o delta,
    sendLoop env dialer (pre ++ rest) (List.length pre) sender rest w = (o, w ++ delta) /\
    shape env sender rest o delta.
Proof.
  induction rest as [|m rest IH]; intros pre sender w.
  - exists (Done tt), []. simpl. unfold ret. rewrite app_nil_r. split; [reflexivity|].
    split; simpl; try easy. now exists 0%nat.
  - assert (Hnext : forall sd w1,
      exists o delta,
        sendLoop env dialer (pre ++ m :: rest) (S (List.length pre)) sd rest w1 = (o, w1 ++ delta) /\
        shape env sd rest o delta).
    { intros sd w1. specialize (IH (pre ++ [m]) sd w1).
      rewrite <- app_assoc, length_app, Nat.add_1_r in IH. exact IH. }
    cbn [sendLoop]. unfold bind at 1. unfold ctxDone at 1.
    destruct (ctx_done env w) eqn:Hc.
    { exists (Done tt), []. unfold ret. rewrite app_nil_r. split; [reflexivity|].
      split; simpl; try easy.
      - now exists 0%nat.
      - intros Hd. unfold ctx_done in Hc. now rewrite Hd in Hc. }
    unfold bind at 1. unfold Generate at 1.
    destruct (generate env m w) as [ge|] eqn:Hg.
    { unfold bind at 1. unfold MailError, emit at 1.
      destruct (Hnext sender ((w ++ [EvGenerate m (Some ge)]) ++ [EvError m ge]))
        as (o & delta & Heq & Hsh).
      exists o, ([EvGenerate m (Some ge); EvError m ge] ++ delta).
      rewrite Heq. split; [now repeat rewrite <- app_assoc|].
      eapply shape_step; eauto. simpl. apply Hsh. }
    unfold bind at 1. unfold gomailSend at 1.
    destruct sender as [s|].
    2:{ exists Panic, [EvGenerate m None]. split; [reflexivity|].
        split; simpl; try easy. now exists 0%nat. }
    set (w1 := w ++ [EvGenerate m None]).
    destruct (send env s m w1) as [e|] eqn:Hs.
    2:{ unfold bind at 1. unfold Success, emit at 1.
        destruct (Hnext (Some s) ((w1 ++ [EvSend s m None]) ++ [EvSuccess m]))
          as (o & delta & Heq & Hsh).
        exists o, ([EvGenerate m None; EvSend s m None; EvSuccess m] ++ delta).
        rewrite Heq. subst w1. split; [now repeat rewrite <- app_assoc|].
        eapply shape_step; eauto. simpl. constructor; [reflexivity|apply Hsh]. }
    assert (Hproto : forall ev,
      ev = EvBackoff m e \/ ev = EvError m e ->
      exists o delta,
        sendLoop env dialer (pre ++ m :: rest) (S (List.length pre)) (Some s) rest
          (((w1 ++ [EvSend s m (Some e)]) ++ [ev]) ++ [EvReset s]) = (o, w ++ delta) /\
        shape env (Some s) (m :: rest) o delta).
    { intros ev Hev.
      destruct (Hnext (Some s) (((w1 ++ [EvSend s m (Some e)]) ++ [ev]) ++ [EvReset s]))
        as (o & delta & Heq & Hsh).
      exists o, ([EvGenerate m None; EvSend s m (Some e); ev; EvReset s] ++ delta).
      rewrite Heq. subst w1. split; [now repeat rewrite <- app_assoc|].
      destruct Hev as [-> | ->]; (eapply shape_step; eauto);
        simpl; (constructor; [reflexivity|apply Hsh]). }
    assert (Hconn : connectionLevel e = true ->
      exists o delta,
        (r <- dialHost env dialer ;;
         match snd r with
         | Some err0 => errorMail err0 (skipn (List.length pre) (pre ++ m :: rest))
         | None => Backoff m e ;;
                   sendLoop env dialer (pre ++ m :: rest) (S (List.length pre)) (fst r) rest
         end) (w1 ++ [EvSend s m (Some e)]) = (o, w ++ delta) /\
        shape env (Some s) (m :: rest) o delta).
    { intros _. set (w2 := w1 ++ [EvSend s m (Some e)]).
      destruct (dialHost_returns env dialer w2) as (r & k & Hd & Hk0 & Hkn & _).
      destruct (dialAttempts_app env dialer k w2) as (dd & Hdd & Hlen & Hall).
      destruct (dials_quiet dd Hall) as [Hdc Hdn].
      unfold bind at 1. rewrite Hd, Hdd.
      rewrite skipn_app, skipn_all, Nat.sub_diag. cbn [skipn app].
      destruct k as [|k].
      - destruct (Hk0 eq_refl) as [-> Hdone]. cbn [snd fst].
        destruct dd; [|discriminate]. rewrite app_nil_r.
        unfold bind at 1. unfold Backoff, emit at 1.
        rewrite sendLoop_cancelled by (now apply ctx_done_app).
        exists (Done tt), [EvGenerate m None; EvSend s m (Some e); EvBackoff m e].
        subst w2 w1. split; [now repeat rewrite <- app_assoc|].
        split; simpl; try easy.
        + now constructor.
        + now exists 1%nat.
        + intros Hdl. unfold ctx_done in Hdone. now rewrite Hdl in Hdone.
      - destruct dd as [|d0 dd]; [discriminate|].
        simpl in Hall. apply andb_true_iff in Hall as [Hd0 Hall].
        destruct d0; try discriminate.
        destruct (snd r) as [e'|] eqn:Hr.
        + rewrite errorMail_trace.
          exists (Done tt),
            ([EvGenerate m None; EvSend s m (Some e)] ++ (EvDial d r0 :: dd) ++
             map (fun x => EvError x e') (m :: rest)).
          subst w2 w1. split; [now repeat rewrite <- app_assoc|].
          assert (Hne : forall l, notified (map (fun x => EvError x e') l) = l)
            by (induction l; simpl; congruence).
          assert (Hce : forall l, closed (map (fun x => EvError x e') l) = [])
            by (induction l; simpl; congruence).
          split.
          * discriminate.
          * simpl. now constructor.
          * rewrite !closed_app, Hdc, Hce. reflexivity.
          * exists (List.length (m :: rest)).
            rewrite !notified_app, Hdn, Hne, firstn_all. reflexivity.
          * intros _ _. rewrite !notified_app, Hdn, Hne. reflexivity.
        + unfold bind at 1. unfold Backoff, emit at 1.
          destruct (Hnext (fst r) ((w2 ++ EvDial d r0 :: dd) ++ [EvBackoff m e]))
            as (o & delta & Heq & Hsh).
          exists o, (([EvGenerate m None; EvSend s m (Some e)] ++
                      (EvDial d r0 :: dd) ++ [EvBackoff m e]) ++ delta).
          rewrite Heq. subst w2 w1. split; [now repeat rewrite <- app_assoc|].
          eapply shape_step; eauto.
          * rewrite !closed_app, Hdc. reflexivity.
          * rewrite !notified_app, Hdn. reflexivity.
          * simpl. now constructor. }
    destruct e as [code msg|u|msg]; [|now apply Hconn|now apply Hconn].
    destruct ((400 <=? code) && (code <=? 499));
      [|destruct ((500 <=? code) && (code <=? 599))];
      unfold bind at 1; unfold Backoff, MailError, emit at 1;
      unfold bind at 1; unfold Reset, emit at 1;
      apply Hproto; auto.
Qed.
(** The same for the loop as it stands after message [m] of the batch. *)
Lemma sendLoop_continues pre m rest sender w :
  exists o delta,
    sendLoop env dialer (pre ++ m :: rest) (S (List.length pre)) sender rest w =
    (o, w ++ delta) /\
    shape env sender rest o delta.
Proof.
  destruct (sendLoop_shape rest (pre ++ [m]) sender w) as (o & delta & Heq & Hsh).
  rewrite <- app_assoc, length_app, Nat.add_1_r in Heq. eauto.
Qed.

End Shape.

(** *** One iteration of the delivery loop *)

Section Iteration.

Variable env : Env.
Variable dialer : Dialer.







End Iteration.

(** *** Whole calls *)

Section Calls.

Variable env : Env.
Variable dialer : Dialer.

(** C6.  Connection acquisition looks at the cancellation signal before
    every attempt and returns [(nil, nil)] as soon as it is set, at once
    when it is set on entry; it dials again after a failed attempt; it
    returns the first sender that a dial yields; and once 10 attempts have
    failed it returns [ErrMaxConnectAttempts] wrapping the error of the
    tenth. *)
Theorem dialHost_retries_to_the_ceiling w :
  (ctx_done env w = true ->
   dialHost env dialer w = (Done (None, None), w)) /\
  (forall k, (k < 10)%nat ->
     dialsFail env dialer k w ->
     ctx_done env (dialAttempts env dialer k w) = true ->
     dialHost env dialer w = (Done (None, None), dialAttempts env dialer k w)) /\
  (forall k, (k < 10)%nat ->
     dialsFail env dialer k w ->
     ctx_done env (dialAttempts env dialer k w) = false ->
     snd (dial env dialer (dialAttempts env dialer k w)) = None ->
     dialHost env dialer w =
     (Done (fst (dial env dialer (dialAttempts env dialer k w)), None),
      dialAttempts env dialer (S k) w)) /\
  (dialsFail env dialer 10 w ->
   let last := dial env dialer (dialAttempts env dialer 9 w) in
   dialHost env dialer w =
   (Done (fst last, Some (ErrMaxConnectAttempts (snd last))),
    dialAttempts env dialer 10 w)).
Proof.
  repeat split.
  - intros Hc. apply (dialHost_cancelled env dialer 0 w); [lia| |exact Hc].
    intros j Hj. lia.
  - intros k. apply dialHost_cancelled.
  - intros k. apply dialHost_connected.
  - apply dialHost_exhausted.
Qed.

(** Every call of [sendMail] comes back or panics; the messages it
    notified are the first so many of the batch, once each and in order,
    and the whole batch when the context is never cancelled and the call
    does not panic. *)
Lemma sendMail_notifies_prefix ms w :
  exists o delta k,
    sendMail env dialer ms w = (o, w ++ delta) /\
    o <> OutOfFuel /\
    notified delta = firstn k ms /\
    (deadline env = None -> o = Done tt -> notified delta = ms).
Proof.
  unfold sendMail.
  destruct (dialHost_returns env dialer w) as (r & k & Hd & _ & _ & _).
  destruct (dialAttempts_app env dialer k w) as (dd & Hdd & _ & Hall).
  destruct (dials_quiet dd Hall) as [_ Hdn].
  unfold bind at 1. rewrite Hd, Hdd.
  destruct (snd r) as [e|].
  - rewrite errorMail_trace.
    exists (Done tt), (dd ++ map (fun x => EvError x e) ms), (List.length ms).
    assert (Hne : forall l, notified (map (fun x => EvError x e) l) = l)
      by (induction l; simpl; congruence).
    rewrite <- app_assoc, notified_app, Hdn, Hne, firstn_all. repeat split.
    discriminate.
  - destruct (fst r) as [s|].
    + unfold defer.
      destruct (sendLoop_shape env dialer ms [] (Some s) (w ++ dd))
        as (o & delta & Heq & Hsh).
      cbn [app List.length] in Heq. rewrite Heq.
      destruct (shape_prefix _ _ _ _ _ Hsh) as [n Hn].
      exists o, ((dd ++ delta) ++ [EvClose s]), n.
      rewrite !notified_app, Hdn, Hn. cbn [notified flat_map]. rewrite app_nil_r.
      repeat split.
      * unfold Close, emit. cbn [snd]. now rewrite <- !app_assoc.
      * apply Hsh.
      * intros Hdl Ho. rewrite <- Hn. now apply (shape_all _ _ _ _ _ Hsh).
    + exists Panic, dd, 0%nat. rewrite Hdn. repeat split; discriminate.
Qed.

(** C5.  Once a call of [sendMail] has acquired its first sender, that
    sender is the only one it ever closes, at exit: a sender obtained by
    reconnecting in the middle of the batch is never closed. *)
Theorem sendMail_closes_first_sender_only ms w s0 w1 :
  dialHost env dialer w = (Done (Some s0, None), w1) ->
  exists o delta,
    sendMail env dialer ms w = (o, w1 ++ delta) /\
    o <> OutOfFuel /\
    closed delta = [s0].
Proof.
  intros Hd. unfold sendMail, bind at 1. rewrite Hd. cbn [snd fst]. unfold defer.
  destruct (sendLoop_shape env dialer ms [] (Some s0) w1) as (o & delta & Heq & Hsh).
  cbn [app List.length] in Heq. rewrite Heq.
  exists o, (delta ++ [EvClose s0]). unfold Close, emit. cbn [snd].
  rewrite closed_app, (shape_closed _ _ _ _ _ Hsh), app_assoc.
  repeat split. apply Hsh.
Qed.

(** C7.  A context that is already cancelled when [sendMail] is entered
    makes connection acquisition return [(nil, nil)], and the deferred
    close of the nil sender panics: the call does not return. *)
Theorem sendMail_cancelled_on_entry_panics ms w :
  ctx_done env w = true ->
  sendMail env dialer ms w = (Panic, w).
Proof.
  intros Hc. unfold sendMail, bind.
  rewrite (dialHost_cancelled env dialer 0 w); [reflexivity|lia| |exact Hc].
  intros j Hj. lia.
Qed.

(** C10.  A bundle without mails makes the unit of work panic on [ms[0]]
    before anything else happens. *)
Theorem empty_bundle_panics delay w :
  Start_worker env (NewMailBundle [] delay) w = (Panic, w).
Proof. reflexivity. Qed.


End Calls.

(** *** Dispatch and pacing *)



(** *** The theorems at concrete runs *)

Section Runs.

Import Scenarios.





(** The whole call for that batch: senders 1 and 2 are acquired, only
    sender 1 is closed. *)
Example reconnect_leaves_second_sender_open :
  let env := world None always 2%nat eof in
  let w := snd (sendMail env d7 batch []) in
  fst (sendMail env d7 batch []) = Done tt /\
  acquired w = [1; 2]%nat /\
  closed w = [1%nat] /\
  notified w = batch.
Proof. repeat split. Qed.

Lemma first_sender_only_run :
  exists o delta,
    sendMail (world None always 2%nat eof) d7 batch [] =
    (o, [EvDial d7 (Some 1%nat, None)] ++ delta) /\
    o <> OutOfFuel /\
    closed delta = [1%nat].
Proof.
  apply (sendMail_closes_first_sender_only (world None always 2%nat eof) d7 batch
           [] 1%nat [EvDial d7 (Some 1%nat, None)]).
  reflexivity.
Defined.

(** Cancelled on entry; ten refused dials; cancelled after two refused
    dials; and connected at the third dial. *)
Lemma dialHost_runs :
  dialHost (world (Some 0%nat) always 2%nat eof) d7 [] = (Done (None, None), []) /\
  dialHost (world (Some 2%nat) never 2%nat eof) d7 [] =
    (Done (None, None), [EvDial d7 (None, Some refused); EvDial d7 (None, Some refused)]) /\
  dialHost (world None fromThirdDial 2%nat eof) d7 [] =
    (Done (Some 1%nat, None),
     [EvDial d7 (None, Some refused); EvDial d7 (None, Some refused);
      EvDial d7 (Some 1%nat, None)]) /\
  dialHost (world None never 2%nat eof) d7 [] =
    (Done (None, Some ceiling), repeat (EvDial d7 (None, Some refused)) 10).
Proof.
  split; [|split; [|split]].
  - apply (proj1 (dialHost_retries_to_the_ceiling
                    (world (Some 0%nat) always 2%nat eof) d7 [])).
    reflexivity.
  - apply (proj1 (proj2 (dialHost_retries_to_the_ceiling
                           (world (Some 2%nat) never 2%nat eof) d7 [])) 2%nat);
      [lia| |reflexivity].
    intros j Hj. destruct j as [|[|j]]; [split; [reflexivity|discriminate]..|lia].
  - apply (proj1 (proj2 (proj2 (dialHost_retries_to_the_ceiling
                           (world None fromThirdDial 2%nat eof) d7 []))) 2%nat);
      [lia| |reflexivity|reflexivity].
    intros j Hj. destruct j as [|[|j]]; [split; [reflexivity|discriminate]..|lia].
  - apply (proj2 (proj2 (proj2 (dialHost_retries_to_the_ceiling
                           (world None never 2%nat eof) d7 [])))).
    intros j Hj. split; [reflexivity|discriminate].
Defined.

Lemma cancelled_on_entry_run :
  sendMail (world (Some 0%nat) always 2%nat eof) d7 batch [] = (Panic, []).
Proof.
  apply (sendMail_cancelled_on_entry_panics (world (Some 0%nat) always 2%nat eof) d7
           batch []).
  reflexivity.
Defined.

(** Cancellation in the middle of the batch, by contrast, ends the call in
    the ordinary way: mail 1 keeps its outcome, mails 2 and 3 get none. *)
Example cancelled_mid_batch_run :
  sendMail (world (Some 4%nat) always 0%nat eof) d7 batch [] =
  (Done tt, afterFirstMail ++ [EvClose 1%nat]).
Proof. reflexivity. Qed.


(** The paced run of two mails in full: tick, dial, deliver, close, twice. *)
Example paced_run :
  Start_worker (world None always 0%nat eof) (NewMailBundle [1; 2]%nat 1) [] =
  (Done tt,
   [EvGetDialer 1%nat d7 None;
    EvTick; EvDial d7 (Some 1%nat, None); EvGenerate 1%nat None;
    EvSend 1%nat 1%nat None; EvSuccess 1%nat; EvClose 1%nat;
    EvTick; EvDial d7 (Some 2%nat, None); EvGenerate 2%nat None;
    EvSend 2%nat 2%nat None; EvSuccess 2%nat; EvClose 2%nat]).
Proof. reflexivity. Qed.


End Runs.

End MailerFacts.

(** * Properties of the webhook sender *)

Module WebhookFacts.
Import Webhook.

Section Sender.

Variable Payload : Type.
Variable json_Marshal : Payload -> bytes * option error.
Variable hmac_sha256 : bytes -> bytes -> bytes.
Variable url_ok : string -> bool.
Variable client_Do : Request -> option Response * option error.
Variable data_bytes : Payload -> bytes.


(** With a URL that parses, the request that goes out is a POST of the
    JSON bytes with the two headers; the signature is the hex of the keyed
    hash of [data] as handed to [sign], and what [Send] returns follows
    the answer of the client. *)
Lemma Send_request url secret data jsonData :
  json_Marshal data = (jsonData, None) ->
  url_ok url = true ->
  let signat := hex_EncodeToString
                  (hmac_sha256 (list_byte_of_string secret) (data_bytes data)) in
  let req := {| Method := "POST"; URL := url; Body := jsonData;
                Hdr := [("Content-Type", "application/json");
                        (SignatureHeader, signat)]%string |} in
  Header_Get (Hdr req) SignatureHeader = Some signat /\
  Header_Get (Hdr req) "Content-Type" = Some "application/json"%string /\
  Send Payload json_Marshal hmac_sha256 url_ok client_Do data_bytes
    url secret data =
  match client_Do req with
  | (_, Some e) => Return (Some e)
  | (None, None) => Panic
  | (Some resp, None) =>
      if StatusCode resp >=? 400
      then Return (Some ("http status of response: " ++ Status resp)%string)
      else Return None
  end.
Proof.
  intros Hj Hu signat req. repeat split.
  unfold Send, http_NewRequest, sign. rewrite Hj, Hu.
  subst req signat. cbn.
  destruct (client_Do _) as [[resp|] [e|]]; reflexivity.
Qed.

(** C8.  With a URL that [http.NewRequest] cannot parse, [Send] does not
    return an error: the error is overwritten unread and setting a header
    on the nil request panics. *)
Theorem Send_unparsable_url_panics url secret data :
  snd (json_Marshal data) = None ->
  url_ok url = false ->
  Send Payload json_Marshal hmac_sha256 url_ok client_Do data_bytes
    url secret data = Panic.
Proof.
  intros Hj Hu. unfold Send, http_NewRequest, sign.
  destruct (json_Marshal data) as [jsonData err]. simpl in Hj. subst err.
  rewrite Hu. reflexivity.
Qed.

End Sender.

Import Scenarios.

Lemma unparsable_url_run :
  Send bytes marshal keyed parses (verifier "secret") asIs ":" "secret"
    (list_byte_of_string "{}") = Panic.
Proof.
  apply (Send_unparsable_url_panics bytes marshal keyed parses (verifier "secret") asIs
           ":" "secret" (list_byte_of_string "{}")); reflexivity.
Defined.

(** A receiver that recomputes the keyed hash over the body it got turns
    the request down: the signature was taken over [data], the body is
    [jsonData]. *)
Example signature_is_not_over_the_body :
  Send bytes marshal keyed parses (verifier "secret") asIs
    "http://hooks.example/notify" "secret" (list_byte_of_string "{}") =
  Return (Some "http status of response: 401 Unauthorized"%string).
Proof. reflexivity. Qed.

End WebhookFacts.

(** * Further properties of the delivery worker *)

Module DeliveryFacts.
Import Mailer MailerFacts.
Local Open Scope go_scope.

(** ** Connection acquisition, case by case *)

Section Acquisition.

Variable env : Env.
Variable dialer : Dialer.

(** Among the first [n] attempts either one is never made because the
    context is done, or one yields no error, or all of them fail. *)
Lemma dial_first_stop w n :
  (exists k, (k < n)%nat /\ dialsFail env dialer k w /\
     (ctx_done env (dialAttempts env dialer k w) = true \/
      (ctx_done env (dialAttempts env dialer k w) = false /\
       snd (dial env dialer (dialAttempts env dialer k w)) = None))) \/
  dialsFail env dialer n w.
Proof.
  induction n as [|n IH].
  - right. intros j Hj. lia.
  - destruct IH as [(k & Hk & Hf & Hs)|Hf].
    + left. exists k. split; [lia|split; assumption].
    + destruct (ctx_done env (dialAttempts env dialer n w)) eqn:Hc.
      * left. exists n. split; [lia|split; [assumption|now left]].
      * destruct (snd (dial env dialer (dialAttempts env dialer n w))) as [e|] eqn:Hd.
        -- right. intros j Hj. destruct (Nat.eq_dec j n) as [->|Hne].
           ++ split; [exact Hc|]. rewrite Hd. discriminate.
           ++ apply Hf. lia.
        -- left. exists n. split; [lia|split; [assumption|right; now split]].
Qed.

(** The retry loop ends in one of the three ways of [Acquired]. *)
Lemma dialHost_cases w :
  exists r w', dialHost env dialer w = (Done r, w') /\ Acquired env dialer w r w'.
Proof.
  destruct (dial_first_stop w 10) as [(k & Hk & Hf & [Hc|[Hc Hd]])|Hf].
  - eexists _, _. split; [apply (dialHost_cancelled env dialer k w); assumption|].
    now constructor.
  - eexists _, _. split; [apply (dialHost_connected env dialer k w); assumption|].
    now constructor.
  - eexists _, _. split; [apply (dialHost_exhausted env dialer w); assumption|].
    now constructor.
Qed.

Lemma dialAttempts_within k ms :
  forall w, exists dd,
    dialAttempts env dialer k w = w ++ dd /\
    List.length dd = k /\
    forallb isDial dd = true /\
    forallb (ofDelivery dialer ms) dd = true.
Proof.
  induction k as [|k IH]; intros w.
  - exists []. now rewrite app_nil_r.
  - destruct (IH (w ++ [EvDial dialer (dial env dialer w)])) as (dd & Hd & Hl & Hi & Ho).
    exists (EvDial dialer (dial env dialer w) :: dd). cbn [dialAttempts].
    rewrite Hd, <- app_assoc. simpl. now rewrite Hl, Hi, Ho, Nat.eqb_refl.
Qed.

End Acquisition.

Section Outcome.

Variable env : Env.
Variable dialer : Dialer.

(** Connection acquisition always returns, in one of three ways:
    cancelled, connected or given up after ten failures.  It makes at most
    ten dial attempts and leaves nothing else in the trace. *)
Theorem dialHost_ends_in_one_of_three_ways w :
  exists r w' delta,
    dialHost env dialer w = (Done r, w') /\
    Acquired env dialer w r w' /\
    w' = w ++ delta /\
    (List.length delta <= 10)%nat /\
    forallb isDial delta = true.
Proof.
  destruct (dialHost_cases env dialer w) as (r & w' & Hd & Hacq).
  assert (Hk : exists k, (k <= 10)%nat /\ w' = dialAttempts env dialer k w).
  { destruct Hacq as [k Hk _ _ | k Hk _ _ _ | _];
      [exists k|exists (S k)|exists 10%nat]; split; try reflexivity; lia. }
  destruct Hk as (k & Hk & ->).
  destruct (dialAttempts_app env dialer k w) as (dd & Hdd & Hl & Hi).
  exists r, (dialAttempts env dialer k w), dd.
  repeat split; try assumption. lia.
Qed.

(** The error returned after ten failed attempts reads "Max connection
    attempts exceeded - " followed by the text of the tenth dial error. *)
Theorem exhaustion_error_names_last_failure w u :
  dialsFail env dialer 10 w ->
  snd (dial env dialer (dialAttempts env dialer 9 w)) = Some u ->
  exists s e w',
    dialHost env dialer w = (Done (s, Some e), w') /\
    Error e = ("Max connection attempts exceeded - " ++ Error u)%string.
Proof.
  intros Hf Hu. eexists _, _, _. split.
  - apply (dialHost_exhausted env dialer w Hf).
  - rewrite Hu. reflexivity.
Qed.

End Outcome.

(** ** The events of a delivery *)

Section Bounds.

Variable env : Env.
Variable dialer : Dialer.

Lemma never_done w : deadline env = None -> ctx_done env w = false.
Proof. intros H. unfold ctx_done. now rewrite H. Qed.

Lemma ofDelivery_weaken m rest delta :
  forallb (ofDelivery dialer rest) delta = true ->
  forallb (ofDelivery dialer (m :: rest)) delta = true.
Proof.
  rewrite !forallb_forall. intros H e He. specialize (H e He).
  destruct e; simpl in *; try assumption; rewrite H; apply orb_true_r.
Qed.

Lemma errors_within e l :
  forallb (ofDelivery dialer l) (map (fun x => EvError x e) l) = true.
Proof.
  apply forallb_forall. intros ev Hev. apply in_map_iff in Hev as (x & <- & Hx).
  simpl. apply existsb_exists. exists x. split; [assumption|apply Nat.eqb_refl].
Qed.

Lemma bounds_step sender sender' m rest o delta evs :
  bounds env dialer sender' rest o delta ->
  forallb (ofDelivery dialer (m :: rest)) evs = true ->
  (sender <> None -> sender' <> None) ->
  bounds env dialer sender (m :: rest) o (evs ++ delta).
Proof.
  intros [H1 H2] He Hs. split.
  - rewrite forallb_app, He. now apply ofDelivery_weaken.
  - auto.
Qed.

Lemma sendLoop_bounds rest :
  forall pre sender w,
  exists o delta,
    sendLoop env dialer (pre ++ rest) (List.length pre) sender rest w = (o, w ++ delta) /\
    bounds env dialer sender rest o delta.
Proof.
  induction rest as [|m rest IH]; intros pre sender w.
  - exists (Done tt), []. simpl. unfold ret. rewrite app_nil_r. now repeat split.
  - assert (Hnext : forall sd w1,
      exists o delta,
        sendLoop env dialer (pre ++ m :: rest) (S (List.length pre)) sd rest w1 = (o, w1 ++ delta) /\
        bounds env dialer sd rest o delta).
    { intros sd w1. specialize (IH (pre ++ [m]) sd w1).
      rewrite <- app_assoc, length_app, Nat.add_1_r in IH. exact IH. }
    assert (Hm : existsb (Nat.eqb m) (m :: rest) = true)
      by (simpl; now rewrite Nat.eqb_refl).
    cbn [sendLoop]. unfold bind at 1. unfold ctxDone at 1.
    destruct (ctx_done env w) eqn:Hc.
    { exists (Done tt), []. unfold ret. rewrite app_nil_r. now repeat split. }
    unfold bind at 1. unfold Generate at 1.
    destruct (generate env m w) as [ge|] eqn:Hg.
    { unfold bind at 1. unfold MailError, emit at 1.
      destruct (Hnext sender ((w ++ [EvGenerate m (Some ge)]) ++ [EvError m ge]))
        as (o & delta & Heq & Hb).
      exists o, ([EvGenerate m (Some ge); EvError m ge] ++ delta).
      rewrite Heq. split; [now repeat rewrite <- app_assoc|].
      eapply bounds_step; eauto. cbn [forallb ofDelivery]. now rewrite Hm. }
    unfold bind at 1. unfold gomailSend at 1.
    destruct sender as [s|].
    2:{ exists Panic, [EvGenerate m None]. split; [reflexivity|].
        split; [cbn [forallb ofDelivery]; now rewrite Hm|easy]. }
    set (w1 := w ++ [EvGenerate m None]).
    destruct (send env s m w1) as [e|] eqn:Hs.
    2:{ unfold bind at 1. unfold Success, emit at 1.
        destruct (Hnext (Some s) ((w1 ++ [EvSend s m None]) ++ [EvSuccess m]))
          as (o & delta & Heq & Hb).
        exists o, ([EvGenerate m None; EvSend s m None; EvSuccess m] ++ delta).
        rewrite Heq. subst w1. split; [now repeat rewrite <- app_assoc|].
        eapply bounds_step; eauto. cbn [forallb ofDelivery]. now rewrite Hm. }
    assert (Hproto : forall ev,
      ev = EvBackoff m e \/ ev = EvError m e ->
      exists o delta,
        sendLoop env dialer (pre ++ m :: rest) (S (List.length pre)) (Some s) rest
          (((w1 ++ [EvSend s m (Some e)]) ++ [ev]) ++ [EvReset s]) = (o, w ++ delta) /\
        bounds env dialer (Some s) (m :: rest) o delta).
    { intros ev Hev.
      destruct (Hnext (Some s) (((w1 ++ [EvSend s m (Some e)]) ++ [ev]) ++ [EvReset s]))
        as (o & delta & Heq & Hb).
      exists o, ([EvGenerate m None; EvSend s m (Some e); ev; EvReset s] ++ delta).
      rewrite Heq. subst w1. split; [now repeat rewrite <- app_assoc|].
      eapply bounds_step; eauto.
      destruct Hev as [-> | ->]; cbn [forallb ofDelivery]; now rewrite Hm. }
    assert (Hconn : connectionLevel e = true ->
      exists o delta,
        (r <- dialHost env dialer ;;
         match snd r with
         | Some err0 => errorMail err0 (skipn (List.length pre) (pre ++ m :: rest))
         | None => Backoff m e ;;
                   sendLoop env dialer (pre ++ m :: rest) (S (List.length pre)) (fst r) rest
         end) (w1 ++ [EvSend s m (Some e)]) = (o, w ++ delta) /\
        bounds env dialer (Some s) (m :: rest) o delta).
    { intros _. set (w2 := w1 ++ [EvSend s m (Some e)]).
      assert (Hhead : forallb (ofDelivery dialer (m :: rest))
                        [EvGenerate m None; EvSend s m (Some e)] = true)
        by (cbn [forallb ofDelivery]; now rewrite Hm).
      destruct (dialHost_cases env dialer w2) as (r & w' & Hd & Hacq).
      unfold bind at 1. rewrite Hd.
      rewrite skipn_app, skipn_all, Nat.sub_diag. cbn [skipn app].
      destruct Hacq as [k Hk Hf Hdone | k Hk Hf Hlive Hok | Hf].
      - destruct (dialAttempts_within env dialer k (m :: rest) w2)
          as (dd & Hdd & _ & _ & Hin).
        cbn [snd fst]. unfold bind at 1. unfold Backoff, emit at 1.
        rewrite sendLoop_cancelled by (now apply ctx_done_app).
        exists (Done tt), ([EvGenerate m None; EvSend s m (Some e)] ++ dd ++ [EvBackoff m e]).
        rewrite Hdd. subst w2 w1. split; [now repeat rewrite <- app_assoc|].
        split; [|easy].
        rewrite !forallb_app, Hhead, Hin. cbn [forallb ofDelivery]. now rewrite Hm.
      - destruct (dialAttempts_within env dialer (S k) (m :: rest) w2)
          as (dd & Hdd & _ & _ & Hin).
        cbn [snd fst]. unfold bind at 1. unfold Backoff, emit at 1.
        destruct (Hnext (fst (dial env dialer (dialAttempts env dialer k w2)))
                    (dialAttempts env dialer (S k) w2 ++ [EvBackoff m e]))
          as (o & delta & Heq & Hb).
        exists o, (([EvGenerate m None; EvSend s m (Some e)] ++ dd ++ [EvBackoff m e]) ++ delta).
        rewrite Heq, Hdd. subst w2 w1. split; [now repeat rewrite <- app_assoc|].
        destruct Hb as [Hb1 Hb2]. split.
        + rewrite !forallb_app, Hhead, Hin. cbn [forallb ofDelivery].
          rewrite Hm. now apply ofDelivery_weaken.
        + intros Hdl Hwell _. apply Hb2; auto.
      - destruct (dialAttempts_within env dialer 10 (m :: rest) w2)
          as (dd & Hdd & _ & _ & Hin).
        cbn [snd]. rewrite errorMail_trace.
        eexists (Done tt), ([EvGenerate m None; EvSend s m (Some e)] ++ dd ++ _).
        rewrite Hdd. subst w2 w1. split; [now repeat rewrite <- app_assoc|].
        split; [|easy].
        rewrite !forallb_app, Hhead, Hin. apply errors_within. }
    destruct e as [code msg|u|msg]; [|now apply Hconn|now apply Hconn].
    destruct ((400 <=? code) && (code <=? 499));
      [|destruct ((500 <=? code) && (code <=? 599))];
      unfold bind at 1; unfold Backoff, MailError, emit at 1;
      unfold bind at 1; unfold Reset, emit at 1;
      apply Hproto; auto.
Qed.

End Bounds.

Section Delivery.

Variable env : Env.
Variable dialer : Dialer.

Lemma notified_errors e l : notified (map (fun x => EvError x e) l) = l.
Proof. induction l; simpl; congruence. Qed.

Lemma closed_errors e l : closed (map (fun x => EvError x e) l) = [].
Proof. induction l; simpl; congruence. Qed.

Lemma ticks_within ms delta :
  forallb (ofDelivery dialer ms) delta = true -> ticks delta = 0%nat.
Proof.
  unfold ticks. induction delta as [|e delta IH]; [reflexivity|].
  simpl. intros H. apply andb_true_iff in H as [He Hd].
  destruct e; simpl; try discriminate; auto.
Qed.


(** Both descriptions of a run of the loop hold of the same run. *)
Lemma sendLoop_run rest pre sender w :
  exists o delta,
    sendLoop env dialer (pre ++ rest) (List.length pre) sender rest w = (o, w ++ delta) /\
    shape env sender rest o delta /\
    bounds env dialer sender rest o delta.
Proof.
  destruct (sendLoop_shape env dialer rest pre sender w) as (o & delta & Heq & Hsh).
  destruct (sendLoop_bounds env dialer rest pre sender w) as (o' & delta' & Heq' & Hb).
  rewrite Heq in Heq'. injection Heq' as <- Hd. apply app_inv_head in Hd as <-.
  eauto.
Qed.

(** What a whole call of [sendMail] adds to the trace. *)
Lemma sendMail_run ms w :
  exists o delta,
    sendMail env dialer ms w = (o, w ++ delta) /\
    o <> OutOfFuel /\
    forallb (ofDelivery dialer ms) delta = true /\
    (exists k, notified delta = firstn k ms) /\
    (deadline env = None -> dialsWell env dialer ->
     o = Done tt /\ notified delta = ms).
Proof.
  unfold sendMail.
  destruct (dialHost_cases env dialer w) as (r & w' & Hd & Hacq).
  unfold bind at 1. rewrite Hd.
  destruct Hacq as [k Hk Hf Hdone | k Hk Hf Hlive Hok | Hf].
  - destruct (dialAttempts_within env dialer k ms w) as (dd & Hdd & _ & Hi & Hin).
    destruct (dials_quiet dd Hi) as [_ Hn].
    cbn [snd fst]. exists Panic, dd. rewrite Hdd, Hn.
    split; [reflexivity|]. split; [discriminate|]. split; [exact Hin|].
    split; [now exists 0%nat|].
    intros Hdl _. rewrite (never_done env _ Hdl) in Hdone. discriminate.
  - destruct (dialAttempts_within env dialer (S k) ms w) as (dd & Hdd & _ & Hi & Hin).
    destruct (dials_quiet dd Hi) as [_ Hn].
    cbn [snd fst].
    destruct (fst (dial env dialer (dialAttempts env dialer k w))) as [s|] eqn:Hs.
    + unfold defer.
      destruct (sendLoop_run ms [] (Some s) (dialAttempts env dialer (S k) w))
        as (o & delta & Heq & Hsh & Hb).
      cbn [app List.length] in Heq. rewrite Heq. unfold Close, emit. cbn [snd].
      exists o, ((dd ++ delta) ++ [EvClose s]). rewrite Hdd.
      split; [now rewrite <- !app_assoc|].
      split; [apply Hsh|]. split.
      { rewrite !forallb_app, Hin, (bounds_within _ _ _ _ _ _ Hb). reflexivity. }
      rewrite !notified_app, Hn. cbn [app notified flat_map]. rewrite app_nil_r.
      split; [apply Hsh|].
      intros Hdl Hwell.
      assert (Ho : o = Done tt) by (apply (bounds_completes _ _ _ _ _ _ Hb); easy).
      split; [exact Ho|]. now apply (shape_all _ _ _ _ _ Hsh).
    + exists Panic, dd. rewrite Hdd, Hn.
      split; [reflexivity|]. split; [discriminate|]. split; [exact Hin|].
      split; [now exists 0%nat|].
      intros _ Hwell. exfalso. apply (Hwell _ Hok). exact Hs.
  - destruct (dialAttempts_within env dialer 10 ms w) as (dd & Hdd & _ & Hi & Hin).
    destruct (dials_quiet dd Hi) as [_ Hn].
    cbn [snd]. rewrite errorMail_trace.
    eexists (Done tt), (dd ++ _). rewrite Hdd.
    split; [now rewrite <- app_assoc|]. split; [discriminate|]. split.
    { rewrite forallb_app, Hin. apply errors_within. }
    rewrite notified_app, Hn, notified_errors. split.
    + exists (List.length ms). now rewrite firstn_all.
    + now intros _ _.
Qed.

End Delivery.

(** ** Iterations and whole calls *)

Section Calls.

Variable env : Env.
Variable dialer : Dialer.

(** When the first connection cannot be acquired in ten attempts, every
    mail of the batch gets one Permanent-Error carrying the ceiling error,
    in batch order; nothing is rendered, sent or closed. *)
Theorem sendMail_without_connection_errors_all ms w :
  dialsFail env dialer 10 w ->
  let e := ErrMaxConnectAttempts
             (snd (dial env dialer (dialAttempts env dialer 9 w))) in
  sendMail env dialer ms w =
  (Done tt, dialAttempts env dialer 10 w ++ map (fun m => EvError m e) ms).
Proof.
  intros Hf e. unfold sendMail, bind at 1.
  rewrite (dialHost_exhausted env dialer w Hf). cbn [snd].
  apply errorMail_trace.
Qed.

(** A mail that cannot be rendered gets one Permanent-Error carrying the
    render error; nothing is sent, reset or dialled for it, and the loop
    goes on with the next mail and the same sender. *)
Theorem render_failure_errors_and_continues pre m rest sender w ge :
  let ms := pre ++ m :: rest in
  let w' := w ++ [EvGenerate m (Some ge); EvError m ge] in
  ctx_done env w = false ->
  generate env m w = Some ge ->
  sendLoop env dialer ms (List.length pre) sender (m :: rest) w =
  sendLoop env dialer ms (S (List.length pre)) sender rest w' /\
  exists o delta,
    sendLoop env dialer ms (S (List.length pre)) sender rest w' = (o, w' ++ delta) /\
    shape env sender rest o delta.
Proof.
  intros ms w' Hc Hg. subst w'. split; [|apply sendLoop_continues].
  cbn [sendLoop]. unfold bind at 1. unfold ctxDone at 1. rewrite Hc.
  unfold bind at 1. unfold Generate at 1. rewrite Hg.
  unfold bind at 1. unfold MailError, emit at 1.
  now rewrite <- app_assoc.
Qed.




(** Whatever happens, the mails that [sendMail] notified are the first so
    many of the batch, each once and in batch order: no mail is notified
    twice, out of order, or before a mail in front of it. *)
Theorem sendMail_outcomes_form_a_prefix ms w :
  exists o delta k,
    sendMail env dialer ms w = (o, w ++ delta) /\
    o <> OutOfFuel /\
    notified delta = firstn k ms.
Proof.
  destruct (sendMail_run env dialer ms w) as (o & delta & Heq & Ho & _ & (k & Hk) & _).
  now exists o, delta, k.
Qed.

(** [sendMail] only dials its own dialer and only renders, sends and
    notifies mails of its batch; it never asks for a dialer and never
    waits for a tick. *)
Theorem sendMail_stays_within_the_batch ms w :
  exists o delta,
    sendMail env dialer ms w = (o, w ++ delta) /\
    forallb (ofDelivery dialer ms) delta = true /\
    ticks delta = 0%nat.
Proof.
  destruct (sendMail_run env dialer ms w) as (o & delta & Heq & _ & Hin & _).
  exists o, delta. repeat split; try assumption.
  now apply (ticks_within dialer ms).
Qed.


(** With an empty batch, or a context cancelled by the time the
    connection stands, [sendMail] touches no mail and closes the
    connection it acquired. *)
Theorem sendMail_with_nothing_to_send ms w s w1 :
  dialHost env dialer w = (Done (Some s, None), w1) ->
  ms = [] \/ ctx_done env w1 = true ->
  sendMail env dialer ms w = (Done tt, w1 ++ [EvClose s]).
Proof.
  intros Hd Hcase. unfold sendMail, bind at 1. rewrite Hd. cbn [snd fst].
  unfold defer. destruct Hcase as [-> | Hc].
  - reflexivity.
  - now rewrite sendLoop_cancelled.
Qed.


End Calls.

(** ** Resets *)

Section Resets.

Variable env : Env.
Variable dialer : Dialer.







End Resets.

(** ** Pacing and dispatch *)

(** 64-bit wrap-around leaves a value in range alone and takes [2 ^ 64]
    off one in the upper half of the unsigned range. *)
Lemma wrap64_small x : - 2 ^ 63 <= x < 2 ^ 63 -> wrap64 x = x.
Proof. intros H. unfold wrap64. rewrite Z.mod_small; lia. Qed.

Lemma wrap64_above x : 2 ^ 63 <= x < 2 ^ 64 -> wrap64 x = x - 2 ^ 64.
Proof.
  intros H. unfold wrap64.
  rewrite <- (Z.mod_unique (x + 2 ^ 63) (2 ^ 64) 1 (x + 2 ^ 63 - 2 ^ 64)); lia.
Qed.

Section Pacing.

Variable env : Env.
Variable dialer : Dialer.

(** For a delay of 1 to 9223372036 seconds the interval in nanoseconds
    does not wrap, and the pacing wrapper is its loop. *)
Theorem interval_fits_up_to_292_years ms delay :
  1 <= delay <= 9223372036 ->
  wrap64 (delay * Second) = delay * Second /\
  forall w, sendDelayedMail env dialer ms delay w = delayedLoop env dialer ms w.
Proof.
  intros H.
  assert (Hw : wrap64 (delay * Second) = delay * Second)
    by (apply wrap64_small; unfold Second; lia).
  split; [exact Hw|]. intros w. unfold sendDelayedMail. rewrite Hw.
  now replace (delay * Second <=? 0) with false
    by (symmetry; apply Z.leb_gt; unfold Second; lia).
Qed.

(** For a delay of -9223372036 to 0 seconds, and for one of 9223372037
    to 18446744073 seconds, whose nanoseconds wrap to a negative value, the
    ticker cannot be made: the pacing wrapper panics before any tick. *)
Theorem ticker_panics_outside_the_range ms delay w :
  - 9223372036 <= delay <= 0 \/ 9223372037 <= delay <= 18446744073 ->
  sendDelayedMail env dialer ms delay w = (Panic, w).
Proof.
  intros H. unfold sendDelayedMail.
  replace (wrap64 (delay * Second) <=? 0) with true; [reflexivity|].
  symmetry. apply Z.leb_le. destruct H as [H|H].
  - rewrite wrap64_small; unfold Second; lia.
  - rewrite wrap64_above; unfold Second; lia.
Qed.

(** When the context is done and the select takes that case, the pacing
    wrapper stops at once and leaves the remaining mails untouched. *)
Theorem pacing_stops_when_cancelled ms delay w :
  0 < wrap64 (delay * Second) ->
  ctx_done env w = true ->
  tick_first env w = false ->
  sendDelayedMail env dialer ms delay w = (Done tt, w).
Proof.
  intros Hpos Hc Ht. unfold sendDelayedMail.
  replace (wrap64 (delay * Second) <=? 0) with false
    by (symmetry; apply Z.leb_gt; lia).
  destruct ms as [|m ms]; [reflexivity|].
  cbn [delayedLoop]. unfold bind, selectTick. now rewrite Hc, Ht.
Qed.

(** When the context is done but the select takes the tick, the mail is
    handed to [sendMail] with a cancelled context, and the call panics on
    the nil sender right after the tick. *)
Theorem tick_after_cancellation_panics m ms delay w :
  0 < wrap64 (delay * Second) ->
  ctx_done env w = true ->
  tick_first env w = true ->
  sendDelayedMail env dialer (m :: ms) delay w = (Panic, w ++ [EvTick]).
Proof.
  intros Hpos Hc Ht. unfold sendDelayedMail.
  replace (wrap64 (delay * Second) <=? 0) with false
    by (symmetry; apply Z.leb_gt; lia).
  cbn [delayedLoop]. unfold bind at 1. unfold selectTick at 1. rewrite Hc, Ht.
  unfold bind at 1. unfold sendMail, bind at 1.
  rewrite (dialHost_cancelled env dialer 0 (w ++ [EvTick]));
    [reflexivity|lia|intros j Hj; lia|now apply ctx_done_app].
Qed.



End Pacing.

Section Dispatch.

Variable env : Env.

(** When the first mail of a bundle cannot name a dialer, every mail of
    the bundle gets one Permanent-Error carrying that error, and nothing
    is dialled or sent. *)
Theorem bundle_without_dialer_errors_all mb m0 rest d e w :
  Mails mb = m0 :: rest ->
  getDialer env m0 w = (d, Some e) ->
  Start_worker env mb w =
  (Done tt, w ++ EvGetDialer m0 d (Some e) :: map (fun m => EvError m e) (Mails mb)).
Proof.
  intros Hms Hg. unfold Start_worker. rewrite Hms.
  unfold bind at 1. unfold GetDialer at 1. rewrite Hg. cbn [snd fst].
  rewrite errorMail_trace, <- app_assoc. reflexivity.
Qed.


End Dispatch.

(** ** The properties at concrete runs *)

Section Runs.

Import Scenarios.

Lemma always_refused w : dialsFail (world None never 2%nat eof) d7 10 w.
Proof. intros j Hj. split; [reflexivity|discriminate]. Qed.


Lemma refused_ten_times_text :
  exists s e w',
    dialHost (world None never 2%nat eof) d7 [] = (Done (s, Some e), w') /\
    Error e =
    "Max connection attempts exceeded - dial tcp: connection refused"%string.
Proof.
  apply (exhaustion_error_names_last_failure (world None never 2%nat eof) d7 []
           refused (always_refused [])).
  reflexivity.
Defined.

Lemma no_connection_run :
  sendMail (world None never 2%nat eof) d7 batch [] =
  (Done tt,
   repeat (EvDial d7 (None, Some refused)) 10 ++
   [EvError 1%nat ceiling; EvError 2%nat ceiling; EvError 3%nat ceiling]).
Proof.
  apply (sendMail_without_connection_errors_all (world None never 2%nat eof) d7
           batch [] (always_refused [])).
Defined.

Lemma bad_template_run :
  let env := withBadTemplate 2%nat (world None always 0%nat eof) in
  let w' := afterFirstMail ++
            [EvGenerate 2%nat (Some unrenderable); EvError 2%nat unrenderable] in
  sendLoop env d7 batch 1 (Some 1%nat) [2; 3]%nat afterFirstMail =
  sendLoop env d7 batch 2 (Some 1%nat) [3]%nat w' /\
  exists o delta,
    sendLoop env d7 batch 2 (Some 1%nat) [3]%nat w' = (o, w' ++ delta) /\
    shape env (Some 1%nat) [3]%nat o delta.
Proof.
  intros env w'.
  apply (render_failure_errors_and_continues env d7 [1%nat] 2%nat [3%nat]
           (Some 1%nat) afterFirstMail unrenderable); reflexivity.
Defined.




Lemma cancelled_after_dial_run :
  sendMail (world (Some 1%nat) always 0%nat eof) d7 batch [] =
  (Done tt, [EvDial d7 (Some 1%nat, None)] ++ [EvClose 1%nat]).
Proof.
  apply (sendMail_with_nothing_to_send (world (Some 1%nat) always 0%nat eof) d7
           batch [] 1%nat [EvDial d7 (Some 1%nat, None)]);
    [reflexivity|right; reflexivity].
Defined.


Lemma longest_delay_run :
  wrap64 (9223372036 * Second) = 9223372036 * Second /\
  forall w,
    sendDelayedMail (world None always 0%nat eof) d7 batch 9223372036 w =
    delayedLoop (world None always 0%nat eof) d7 batch w.
Proof.
  apply (interval_fits_up_to_292_years (world None always 0%nat eof) d7 batch
           9223372036).
  lia.
Defined.

Lemma no_ticker_runs :
  sendDelayedMail (world None always 0%nat eof) d7 batch 0 [] = (Panic, []) /\
  sendDelayedMail (world None always 0%nat eof) d7 batch 18446744073 [] = (Panic, []).
Proof.
  split.
  - apply (ticker_panics_outside_the_range (world None always 0%nat eof) d7 batch
             0 []). left. lia.
  - apply (ticker_panics_outside_the_range (world None always 0%nat eof) d7 batch
             18446744073 []). right. lia.
Defined.

Lemma pacing_cancelled_run :
  sendDelayedMail (withTickFirst false (world (Some 0%nat) always 0%nat eof)) d7
    batch 1 [] = (Done tt, []).
Proof.
  apply (pacing_stops_when_cancelled
           (withTickFirst false (world (Some 0%nat) always 0%nat eof)) d7 batch 1 []);
    reflexivity.
Defined.

Lemma tick_after_cancellation_run :
  sendDelayedMail (world (Some 0%nat) always 0%nat eof) d7 (1 :: [2; 3])%nat 1 [] =
  (Panic, [] ++ [EvTick]).
Proof.
  apply (tick_after_cancellation_panics (world (Some 0%nat) always 0%nat eof) d7
           1%nat [2; 3]%nat 1 []); reflexivity.
Defined.


Lemma bundle_without_dialer_run :
  Start_worker (withoutDialer (world None always 0%nat eof))
    (NewMailBundle batch 0) [] =
  (Done tt,
   [] ++ EvGetDialer 1%nat 0%nat (Some noDialer) ::
   map (fun m => EvError m noDialer) batch).
Proof.
  apply (bundle_without_dialer_errors_all
           (withoutDialer (world None always 0%nat eof))
           (NewMailBundle batch 0) 1%nat [2; 3]%nat 0%nat noDialer []);
    reflexivity.
Defined.


End Runs.

End DeliveryFacts.

(** * Further properties of the webhook sender *)

Module SenderFacts.
Import Webhook.

(** ** Hexadecimal encoding *)

Lemma hex_byte_roundtrip (v : Byte.byte) (s : string) :
  hex_DecodeString
    (String (hexDigit (N.shiftr (Byte.to_N v) 4))
       (String (hexDigit (N.land (Byte.to_N v) 15)) s)) =
  match hex_DecodeString s with
  | Some rest => Some (v :: rest)
  | None => None
  end.
Proof.
  cbn [hex_DecodeString].
  destruct v; cbv [Byte.to_N N.shiftr N.land hexDigit unhexDigit]; cbn;
    destruct (hex_DecodeString s); reflexivity.
Qed.

(** Decoding gives back what was encoded. *)
Lemma hex_roundtrip (src : bytes) :
  hex_DecodeString (hex_EncodeToString src) = Some src.
Proof.
  induction src as [|v src IH]; [reflexivity|].
  cbn [hex_EncodeToString]. rewrite hex_byte_roundtrip, IH. reflexivity.
Qed.

Lemma hex_length (src : bytes) :
  String.length (hex_EncodeToString src) = (2 * List.length src)%nat.
Proof.
  induction src as [|v src IH]; [reflexivity|].
  cbn [hex_EncodeToString String.length List.length]. rewrite IH. lia.
Qed.

(** ** Signing and sending *)

Section Sender.

Variable Payload : Type.
Variable json_Marshal : Payload -> bytes * option error.
Variable hmac_sha256 : bytes -> bytes -> bytes.
Variable url_ok : string -> bool.
Variable client_Do : Request -> option Response * option error.
Variable data_bytes : Payload -> bytes.

(** The signature is the keyed hash in hexadecimal: it decodes back to
    the hash, has two digits per byte, and [sign] never returns an
    error. *)
Theorem sign_decodes_to_the_mac secret data :
  let mac := hmac_sha256 (list_byte_of_string secret) data in
  hex_DecodeString (fst (sign hmac_sha256 secret data)) = Some mac /\
  String.length (fst (sign hmac_sha256 secret data)) = (2 * List.length mac)%nat /\
  snd (sign hmac_sha256 secret data) = None.
Proof.
  intros mac. unfold sign. cbn [fst snd]. fold mac.
  split; [apply hex_roundtrip|]. split; [apply hex_length|reflexivity].
Qed.

(** Two payloads get the same signature under a secret exactly when
    their keyed hashes are the same. *)
Theorem signatures_agree_only_on_equal_macs secret data1 data2 :
  fst (sign hmac_sha256 secret data1) = fst (sign hmac_sha256 secret data2) <->
  hmac_sha256 (list_byte_of_string secret) data1 =
  hmac_sha256 (list_byte_of_string secret) data2.
Proof.
  unfold sign. cbn [fst]. split.
  - intros H. apply (f_equal hex_DecodeString) in H.
    rewrite !hex_roundtrip in H. now injection H.
  - now intros ->.
Qed.

(** [Send], path by path. *)
Lemma Send_cases url secret data :
  Send Payload json_Marshal hmac_sha256 url_ok client_Do data_bytes url secret data =
  match json_Marshal data with
  | (_, Some e) => Return (Some e)
  | (jsonData, None) =>
      if url_ok url then
        match client_Do (outgoing Payload hmac_sha256 data_bytes url secret jsonData data) with
        | (_, Some e) => Return (Some e)
        | (None, None) => Panic
        | (Some resp, None) =>
            if StatusCode resp >=? 400
            then Return (Some ("http status of response: " ++ Status resp)%string)
            else Return None
        end
      else Panic
  end.
Proof.
  unfold Send, http_NewRequest, outgoing.
  destruct (json_Marshal data) as [jsonData [e|]]; [reflexivity|].
  destruct (url_ok url); [|reflexivity]. cbn.
  destruct (client_Do _) as [[resp|] [e|]]; reflexivity.
Qed.

(** [Send] returns nil exactly when the payload marshals, the URL
    parses, the client returns a response without error and the status
    code is below 400. *)
Theorem Send_returns_nil_exactly_when url secret data :
  Send Payload json_Marshal hmac_sha256 url_ok client_Do data_bytes url secret data =
  Return None <->
  exists jsonData resp,
    json_Marshal data = (jsonData, None) /\
    url_ok url = true /\
    client_Do (outgoing Payload hmac_sha256 data_bytes url secret jsonData data) =
      (Some resp, None) /\
    StatusCode resp < 400.
Proof.
  rewrite Send_cases. split.
  - destruct (json_Marshal data) as [jsonData [e|]]; [discriminate|].
    destruct (url_ok url); [|discriminate].
    destruct (client_Do _) as [[resp|] [e|]] eqn:Hdo; try discriminate.
    destruct (StatusCode resp >=? 400) eqn:Hst; [discriminate|]. intros _.
    rewrite Z.geb_leb in Hst. apply Z.leb_gt in Hst.
    exists jsonData, resp.
    split; [reflexivity|split; [reflexivity|split; [exact Hdo|exact Hst]]].
  - intros (jsonData & resp & -> & -> & -> & Hst).
    now replace (StatusCode resp >=? 400) with false
      by (symmetry; rewrite Z.geb_leb; apply Z.leb_gt; lia).
Qed.


(** A marshalling error is returned as it is, before the URL is looked
    at; an error of the client is returned as it is; a status code of 400
    or more is returned as an error that quotes the status line. *)
Theorem Send_passes_errors_on url secret data :
  (forall jsonData e,
     json_Marshal data = (jsonData, Some e) ->
     Send Payload json_Marshal hmac_sha256 url_ok client_Do data_bytes url secret data =
     Return (Some e)) /\
  (forall jsonData resp e,
     json_Marshal data = (jsonData, None) ->
     url_ok url = true ->
     client_Do (outgoing Payload hmac_sha256 data_bytes url secret jsonData data) =
       (resp, Some e) ->
     Send Payload json_Marshal hmac_sha256 url_ok client_Do data_bytes url secret data =
     Return (Some e)) /\
  (forall jsonData resp,
     json_Marshal data = (jsonData, None) ->
     url_ok url = true ->
     client_Do (outgoing Payload hmac_sha256 data_bytes url secret jsonData data) =
       (Some resp, None) ->
     400 <= StatusCode resp ->
     Send Payload json_Marshal hmac_sha256 url_ok client_Do data_bytes url secret data =
     Return (Some ("http status of response: " ++ Status resp)%string)).
Proof.
  rewrite Send_cases. split; [|split].
  - intros jsonData e ->. reflexivity.
  - intros jsonData resp e -> -> ->. now destruct resp.
  - intros jsonData resp -> -> -> Hst.
    now replace (StatusCode resp >=? 400) with true
      by (symmetry; rewrite Z.geb_leb; apply Z.leb_le; lia).
Qed.

End Sender.

(** ** The properties at concrete calls *)

Section Calls.

Import Scenarios.

Lemma different_payloads_run :
  fst (sign keyed "secret" (list_byte_of_string "a")) <>
  fst (sign keyed "secret" (list_byte_of_string "b")).
Proof.
  intros H.
  apply (proj1 (signatures_agree_only_on_equal_macs keyed "secret"
                  (list_byte_of_string "a") (list_byte_of_string "b"))) in H.
  discriminate H.
Defined.

Lemma accepted_call_run :
  Send bytes marshal keyed parses (answers 200 "200 OK") asIs hook "secret" body =
  Return None.
Proof.
  apply (proj2 (Send_returns_nil_exactly_when bytes marshal keyed parses
                  (answers 200 "200 OK") asIs hook "secret" body)).
  exists (quote :: body ++ [quote]),
         {| StatusCode := 200; Status := "200 OK" |}.
  split; [reflexivity|split; [reflexivity|split; [reflexivity|reflexivity]]].
Defined.


Lemma failing_calls_run :
  Send bytes unmarshalable keyed parses silent asIs ":" "secret" body =
    Return (Some "json: unsupported type"%string) /\
  Send bytes marshal keyed parses unreachable asIs hook "secret" body =
    Return (Some "dial tcp: connection refused"%string) /\
  Send bytes marshal keyed parses (answers 503 "503 Service Unavailable") asIs
    hook "secret" body =
    Return (Some "http status of response: 503 Service Unavailable"%string).
Proof.
  split; [|split].
  - apply (proj1 (Send_passes_errors_on bytes unmarshalable keyed parses silent
                    asIs ":" "secret" body) []).
    reflexivity.
  - apply (proj1 (proj2 (Send_passes_errors_on bytes marshal keyed parses
                           unreachable asIs hook "secret" body))
             (quote :: body ++ [quote]) None);
      reflexivity.
  - apply (proj2 (proj2 (Send_passes_errors_on bytes marshal keyed parses
                           (answers 503 "503 Service Unavailable") asIs hook
                           "secret" body))
             (quote :: body ++ [quote])
             {| StatusCode := 503; Status := "503 Service Unavailable" |});
      try reflexivity.
    simpl. lia.
Defined.

End Calls.

End SenderFacts.
